(** * browser_use/browser/browser.py: the asynchronous browser handle manager

    A shallow embedding of [BrowserConfig] and [Browser] and of the parts of
    the Python runtime they touch (the [Drission] constructor, [driver.quit],
    [logging], [gc] and [asyncio]), followed by theorems about the manager's
    lifecycle.

    The manager is a mutable Python object and every method may raise, so
    methods are computations in a state-and-exception monad whose state
    holds the manager object together with the outside world.  The outside
    world keeps a chronological trace of every call that leaves the manager,
    which is what lets the theorems count constructions and shutdowns. *)

From stdpp Require Import gmap strings list.

Set Default Proof Using "Type".

(** ** Python values, exceptions, drivers *)

(** The values stored in the startup-options dict. *)
Inductive pyval : Type :=
| PyNone
| PyBool (b : bool)
| PyStr (s : string)
| PyList (l : list string)
| PyDict (d : gmap string string).

(** A raised Python exception.  [is_Exception] says whether its class
    derives from [Exception] (which is what [except Exception] tests);
    [KeyboardInterrupt], [SystemExit] and [asyncio.CancelledError] derive
    from [BaseException] only.  [exc_str] is [str(e)]. *)
Record exn : Type := Exn {
  exc_class : string;
  is_Exception : bool;
  exc_str : string
}.

Definition RuntimeError (msg : string) : exn :=
  {| exc_class := "RuntimeError"; is_Exception := true; exc_str := msg |}.

(** A [Drission] object: its identity and the options it was built from. *)
Record Driver : Type := {
  drv_id : nat;
  drv_options : gmap string pyval
}.

(** ** BrowserConfig (lines 9-16) *)

Record BrowserConfig : Type := {
  headless : bool;
  disable_security : bool;
  extra_chromium_args : list string;
  chrome_instance_path : option string;
  proxy : option (gmap string string)
}.

(** The dataclass defaults: [BrowserConfig()] with no argument. *)
Definition BrowserConfig_default : BrowserConfig :=
  {| headless := false;
     disable_security := true;
     extra_chromium_args := [];
     chrome_instance_path := None;
     proxy := None |}.

(** ** The manager object and the outside world *)

(** Which [BrowserConfig] object a manager refers to.  The default of the
    [config] parameter on line 21 is evaluated once, when the [def] is
    executed: every [Browser()] built without an argument refers to that
    one object.  [BrowserConfig] is not frozen, so the object can be
    assigned to. *)
Inductive config_ref : Type :=
| DefaultArgument                  (* the object made on line 21 *)
| CallerObject (c : BrowserConfig). (* an object the caller passed *)

(** [config] and [driver] are Python references; [driver] may be [None]. *)
Record Browser : Type := {
  config : config_ref;
  driver : option Driver
}.

(** What an event loop can be asked to run. *)
Inductive coroutine : Type :=
| CoClose.   (* the coroutine object made by [self.close()] *)

Record Loop : Type := {
  is_running : bool;
  ready : list coroutine
}.

Inductive event : Type :=
| EvDebug (msg : string)
| EvDebugOptions (fmt : string) (options : gmap string pyval)
| EvDrission (options : gmap string pyval) (result : exn + Driver)
| EvQuit (d : Driver) (raised : option exn)
| EvGcCollect.

(** [default_config] is the object stored as the default of [__init__]'s
    [config] parameter, in its present state. *)
Record World : Type := {
  trace : list event;
  next_id : nat;
  running_loop : option Loop;
  default_config : BrowserConfig
}.

Record St : Type := {
  self : Browser;
  world : World
}.

(** The object a reference leads to. *)
Definition deref (w : World) (r : config_ref) : BrowserConfig :=
  match r with
  | DefaultArgument => default_config w
  | CallerObject c => c
  end.

(** The configuration the manager sees when it reads [self.config]. *)
Definition self_config (s : St) : BrowserConfig :=
  deref (world s) (config (self s)).

(** The external driver library.  Whether a call raises may depend on
    everything that happened before it and on its argument. *)
Record Collaborator : Type := {
  Drission_raises : list event -> gmap string pyval -> option exn;
  quit_raises : list event -> Driver -> option exn
}.

(** ** The monad *)

Inductive outcome (A : Type) : Type :=
| Return (a : A)
| Raise (e : exn).
Arguments Return {A} a.
Arguments Raise {A} e.

Definition M (A : Type) : Type := St -> outcome A * St.

Definition ret {A} (a : A) : M A := fun s => (Return a, s).

Definition bind {A B} (m : M A) (k : A -> M B) : M B :=
  fun s =>
    match m s with
    | (Return a, s') => k a s'
    | (Raise e, s') => (Raise e, s')
    end.

Definition raise {A} (e : exn) : M A := fun s => (Raise e, s).

Declare Scope py_scope.
Delimit Scope py_scope with py.
Notation "x <- m ;; k" := (bind m (fun x => k))
  (at level 100, m at next level, right associativity) : py_scope.
Notation "m ;; k" := (bind m (fun _ => k))
  (at level 100, right associativity) : py_scope.
Open Scope py_scope.

(** [try: body  except Exception as e: handler e] *)
Definition try_except_Exception {A} (body : M A) (handler : exn -> M A) : M A :=
  fun s =>
    match body s with
    | (Return a, s') => (Return a, s')
    | (Raise e, s') =>
        if is_Exception e then handler e s' else (Raise e, s')
    end.

(** [try: body  finally: fin]: [fin] always runs; if it raises, its
    exception replaces the outcome of [body]. *)
Definition try_finally {A} (body : M A) (fin : M unit) : M A :=
  fun s =>
    match body s with
    | (r, s') =>
        match fin s' with
        | (Return _, s'') => (r, s'')
        | (Raise e, s'') => (Raise e, s'')
        end
    end.

(** ** State access *)

Definition set_trace (t : list event) (w : World) : World :=
  {| trace := t; next_id := next_id w; running_loop := running_loop w;
     default_config := default_config w |}.

Definition set_running_loop (l : option Loop) (w : World) : World :=
  {| trace := trace w; next_id := next_id w; running_loop := l;
     default_config := default_config w |}.

Definition set_default_config (c : BrowserConfig) (w : World) : World :=
  {| trace := trace w; next_id := next_id w; running_loop := running_loop w;
     default_config := c |}.

Definition log_event (ev : event) (w : World) : World :=
  set_trace (trace w ++ [ev]) w.

Definition emit (ev : event) : M unit :=
  fun s => (Return tt, {| self := self s; world := log_event ev (world s) |}).

(** [self.config] and [self.driver] *)
Definition read_config : M BrowserConfig := fun s => (Return (self_config s), s).
Definition read_driver : M (option Driver) := fun s => (Return (driver (self s)), s).

(** [self.driver = r] *)
Definition write_driver (r : option Driver) : M unit :=
  fun s => (Return tt,
            {| self := {| config := config (self s); driver := r |};
               world := world s |}).

(** ** The runtime the module calls into *)

Definition logger_debug (msg : string) : M unit := emit (EvDebug msg).

Definition logger_debug_options (fmt : string) (o : gmap string pyval) : M unit :=
  emit (EvDebugOptions fmt o).

Definition gc_collect : M unit := emit EvGcCollect.

(** [asyncio.to_thread(f)], awaited: [f] runs on a worker thread and its
    result, or its exception, is delivered to the awaiting task. *)
Definition to_thread {A} (f : M A) : M A := f.

(** Truth value of [self.driver] in [if self.driver:]; an object whose
    class defines neither [__bool__] nor [__len__] is true. *)
Definition truthy (r : option Driver) : bool :=
  match r with
  | Some _ => true
  | None => false
  end.

(** [asyncio.get_running_loop()]: the loop running in this thread;
    [RuntimeError] when there is none. *)
Definition get_running_loop : M Loop :=
  fun s =>
    match running_loop (world s) with
    | Some l => (Return l, s)
    | None => (Raise (RuntimeError "no running event loop"), s)
    end.

(** [loop.create_task(coro)]: the coroutine is queued on [loop] and the
    call returns at once.  [loop] is the object [get_running_loop] handed
    out, that is the thread's running loop, so it is that object which
    gets the longer queue. *)
Definition create_task (loop : Loop) (c : coroutine) : M unit :=
  fun s =>
    (Return tt,
     {| self := self s;
        world := set_running_loop
                   (Some {| is_running := is_running loop;
                            ready := ready loop ++ [c] |})
                   (world s) |}).

(** [asyncio.run(coro)]: refuses to start inside a running loop; otherwise
    runs the coroutine to completion on a loop of its own. *)
Definition asyncio_run {A} (c : M A) : M A :=
  fun s =>
    match running_loop (world s) with
    | Some _ =>
        (Raise (RuntimeError
                  "asyncio.run() cannot be called from a running event loop"), s)
    | None =>
        let s1 := {| self := self s;
                     world := set_running_loop
                                (Some {| is_running := true; ready := [] |})
                                (world s) |} in
        match c s1 with
        | (r, s2) =>
            (r, {| self := self s2;
                   world := set_running_loop None (world s2) |})
        end
    end.

Section Manager.

Variable ext : Collaborator.

(** [Drission(options=options)] *)
Definition Drission (options : gmap string pyval) : M Driver :=
  fun s =>
    let w := world s in
    match Drission_raises ext (trace w) options with
    | Some e =>
        (Raise e,
         {| self := self s;
            world := log_event (EvDrission options (inl e)) w |})
    | None =>
        let d := {| drv_id := next_id w; drv_options := options |} in
        (Return d,
         {| self := self s;
            world := {| trace := trace w ++ [EvDrission options (inr d)];
                        next_id := S (next_id w);
                        running_loop := running_loop w;
                        default_config := default_config w |} |})
    end.

(** [d.quit()] *)
Definition quit (d : Driver) : M unit :=
  fun s =>
    let w := world s in
    match quit_raises ext (trace w) d with
    | Some e =>
        (Raise e,
         {| self := self s; world := log_event (EvQuit d (Some e)) w |})
    | None =>
        (Return tt,
         {| self := self s; world := log_event (EvQuit d None) w |})
    end.

(** *** Browser (lines 18-71) *)

(** Executing the [def] on line 21: [BrowserConfig()] is evaluated and
    the object is kept as the parameter's default. *)
Definition def_Browser (w : World) : World :=
  set_default_config BrowserConfig_default w.

(** [Browser(config)]; [None] stands for the omitted argument, in which
    case [config] is bound to the default object, not to a new one. *)
Definition __init__ (cfg : option BrowserConfig) (w : World) : St :=
  {| self := {| config := match cfg with
                          | Some c => CallerObject c
                          | None => DefaultArgument
                          end;
                driver := None |};
     world := log_event (EvDebug "Initializing new browser") w |}.

(** The dict literal of lines 31-37. *)
Definition startup_options (c : BrowserConfig) : gmap string pyval :=
  <["proxy" := from_option PyDict PyNone (proxy c)]>
  (<["chrome_instance_path" := from_option PyStr PyNone (chrome_instance_path c)]>
  (<["extra_chromium_args" := PyList (extra_chromium_args c)]>
  (<["disable_security" := PyBool (disable_security c)]>
  (<["headless" := PyBool (headless c)]> ∅)))).

Definition _create_driver : M (option Driver) :=
  c <- read_config ;;
  let options := startup_options c in
  d <- Drission options ;;
  write_driver (Some d) ;;
  logger_debug_options "Driver created with options: %s" options ;;
  read_driver.

Definition new_context : M (option Driver) :=
  to_thread _create_driver.

Definition get_driver : M (option Driver) :=
  r <- read_driver ;;
  match r with
  | None => new_context
  | Some _ => read_driver
  end.

Definition close : M unit :=
  try_finally
    (try_except_Exception
       (r <- read_driver ;;
        match r with
        | Some d =>
            to_thread (quit d) ;;
            write_driver None ;;
            logger_debug "Browser closed successfully."
        | None => ret tt
        end)
       (fun e => logger_debug ("Failed to close browser properly: " +:+ exc_str e)))
    gc_collect.

Definition __del__ : M unit :=
  try_except_Exception
    (r <- read_driver ;;
     if truthy r then
       loop <- get_running_loop ;;
       if is_running loop then create_task loop CoClose
       else asyncio_run close
     else ret tt)
    (fun e =>
       logger_debug ("Failed to cleanup browser in destructor: " +:+ exc_str e)).

End Manager.

(** ** Running the manager *)

(** [browser.config.headless = b], as a caller may write it: the
    assignment lands in the object the manager refers to, which for a
    manager built without an argument is the shared default object. *)
Definition assign_config_headless (b : bool) : M unit :=
  fun s =>
    let upd (c : BrowserConfig) :=
      {| headless := b;
         disable_security := disable_security c;
         extra_chromium_args := extra_chromium_args c;
         chrome_instance_path := chrome_instance_path c;
         proxy := proxy c |} in
    match config (self s) with
    | DefaultArgument =>
        (Return tt,
         {| self := self s;
            world := set_default_config (upd (default_config (world s)))
                       (world s) |})
    | CallerObject c =>
        (Return tt,
         {| self := {| config := CallerObject (upd c); driver := driver (self s) |};
            world := world s |})
    end.

(** The two operations a caller drives the manager with. *)
Inductive op : Type :=
| Obtain   (* await browser.get_driver() *)
| Close.   (* await browser.close() *)

(** The state an operation leaves behind, whether it returned or raised. *)
Definition run_op (ext : Collaborator) (o : op) (s : St) : St :=
  match o with
  | Obtain => snd (get_driver ext s)
  | Close => snd (close ext s)
  end.

Definition run_ops (ext : Collaborator) (ops : list op) (s : St) : St :=
  fold_left (fun s o => run_op ext o s) ops s.

(** [n] calls of [get_driver] in a row: their outcomes and the final state. *)
Fixpoint get_driver_times (ext : Collaborator) (n : nat) (s : St)
  : list (outcome (option Driver)) * St :=
  match n with
  | 0 => ([], s)
  | S n' =>
      let (r, s1) := get_driver ext s in
      let (rs, s2) := get_driver_times ext n' s1 in
      (r :: rs, s2)
  end.

(** ** Reading the trace *)

Definition is_quit (ev : event) : bool :=
  match ev with
  | EvQuit _ _ => true
  | _ => false
  end.

Definition is_construction (ev : event) : bool :=
  match ev with
  | EvDrission _ _ => true
  | _ => false
  end.

Definition count_quit (t : list event) : nat := length (List.filter is_quit t).

Definition count_construction (t : list event) : nat :=
  length (List.filter is_construction t).

(** The drivers that have been constructed and whose [quit] has not yet
    returned: the browser processes somebody still has to shut down. *)
Definition owned_step (live : list Driver) (ev : event) : list Driver :=
  match ev with
  | EvDrission _ (inr d) => live ++ [d]
  | EvQuit d None =>
      List.filter (fun d' => negb (Nat.eqb (drv_id d') (drv_id d))) live
  | _ => live
  end.

Definition owned (t : list event) : list Driver := fold_left owned_step t [].

(** The manager owns every driver that is still to be shut down: they are
    the one it refers to, or none. *)
Definition single_owner (s : St) : Prop :=
  owned (trace (world s)) = option_list (driver (self s)).

(** The driver object a successful construction in state [s] yields. *)
Definition new_driver (s : St) : Driver :=
  {| drv_id := next_id (world s);
     drv_options := startup_options (self_config s) |}.

(** ** Sample collaborators and states *)

(** A driver library in which nothing ever fails. *)
Definition ext_reliable : Collaborator :=
  {| Drission_raises := fun _ _ => None;
     quit_raises := fun _ _ => None |}.

(** A driver library whose [quit] always raises an [Exception]. *)
Definition ext_quit_fails : Collaborator :=
  {| Drission_raises := fun _ _ => None;
     quit_raises := fun _ _ =>
       Some {| exc_class := "ConnectionError"; is_Exception := true;
               exc_str := "browser is unreachable" |} |}.

(** A driver library whose constructor always raises an [Exception]. *)
Definition ext_ctor_fails : Collaborator :=
  {| Drission_raises := fun _ _ =>
       Some {| exc_class := "FileNotFoundError"; is_Exception := true;
               exc_str := "chrome executable not found" |};
     quit_raises := fun _ _ => None |}.

(** A world in which nothing has happened and no event loop runs. *)
Definition world0 : World :=
  {| trace := []; next_id := 0; running_loop := None;
     default_config := BrowserConfig_default |}.

(** The same world seen from inside a running event loop. *)
Definition world_in_loop : World :=
  {| trace := []; next_id := 0;
     running_loop := Some {| is_running := true; ready := [] |};
     default_config := BrowserConfig_default |}.

(** [Browser(BrowserConfig(headless=True))], as in the module's example. *)
Definition config_headless : BrowserConfig :=
  {| headless := true;
     disable_security := disable_security BrowserConfig_default;
     extra_chromium_args := extra_chromium_args BrowserConfig_default;
     chrome_instance_path := chrome_instance_path BrowserConfig_default;
     proxy := proxy BrowserConfig_default |}.

(** A manager that has just been constructed, and one that holds a driver. *)
Definition st_fresh : St := __init__ (Some config_headless) world0.

Definition st_active : St := snd (get_driver ext_reliable st_fresh).

(** A manager that holds a driver inside a running event loop. *)
Definition st_active_in_loop : St :=
  snd (get_driver ext_reliable (__init__ None world_in_loop)).

(** A driver library whose [quit] is interrupted from the keyboard:
    [KeyboardInterrupt] does not derive from [Exception]. *)
Definition ext_quit_interrupted : Collaborator :=
  {| Drission_raises := fun _ _ => None;
     quit_raises := fun _ _ =>
       Some {| exc_class := "KeyboardInterrupt"; is_Exception := false;
               exc_str := "" |} |}.

(** A driver library whose first [quit] raises an [Exception] and whose
    later ones return. *)
Definition ext_quit_fails_once : Collaborator :=
  {| Drission_raises := fun _ _ => None;
     quit_raises := fun t _ =>
       if Nat.eqb (count_quit t) 0
       then Some {| exc_class := "ConnectionError"; is_Exception := true;
                    exc_str := "browser is unreachable" |}
       else None |}.

(** ** Every way the manager is driven *)

(** The methods of [Browser] a program can call and the finalizer the
    runtime calls, each run from its call to its return. *)
Inductive action : Type :=
| ActGetDriver    (* await browser.get_driver() *)
| ActNewContext   (* await browser.new_context() *)
| ActClose        (* await browser.close() *)
| ActDel.         (* browser.__del__() *)

Definition run_action (ext : Collaborator) (a : action) (s : St) : St :=
  match a with
  | ActGetDriver => snd (get_driver ext s)
  | ActNewContext => snd (new_context ext s)
  | ActClose => snd (close ext s)
  | ActDel => snd (__del__ ext s)
  end.

Definition run_actions (ext : Collaborator) (acts : list action) (s : St) : St :=
  fold_left (fun s a => run_action ext a s) acts s.

(** A constructor call, if [ev] is one, was given the options built from
    configuration [c]. *)
Definition built_from (c : BrowserConfig) (ev : event) : Prop :=
  match ev with
  | EvDrission o _ => o = startup_options c
  | _ => True
  end.

(** [s'] comes after [s]: the manager refers to the same configuration
    object, the default object is as it was, the trace is longer, and
    every constructor call in between took its options from the manager's
    configuration. *)
Definition follows (s s' : St) : Prop :=
  config (self s') = config (self s) /\
  default_config (world s') = default_config (world s) /\
  exists suffix,
    trace (world s') = trace (world s) ++ suffix /\
    Forall (built_from (self_config s)) suffix.

(** The stored driver, if there is one, was built from the stored
    configuration. *)
Definition driver_from_config (s : St) : Prop :=
  match driver (self s) with
  | Some d => drv_options d = startup_options (self_config s)
  | None => True
  end.

(** * Theorems *)

(** Unfolds a method down to the state it works on. *)
Ltac run_method :=
  unfold close, get_driver, new_context, _create_driver, __del__,
    try_finally, try_except_Exception, bind, ret, to_thread,
    read_driver, read_config, write_driver, quit, Drission,
    get_running_loop, create_task, asyncio_run,
    logger_debug, logger_debug_options, gc_collect, emit;
  cbn [self world fst snd config driver truthy].

(** ** Equations of the methods, one per path *)

Section Facts.

Variable ext : Collaborator.

Lemma trace_log_event ev w : trace (log_event ev w) = trace w ++ [ev].
Proof. reflexivity. Qed.

Lemma close_no_driver s :
  driver (self s) = None ->
  close ext s
  = (Return tt, {| self := self s; world := log_event EvGcCollect (world s) |}).
Proof. intros Hd. run_method. rewrite Hd. reflexivity. Qed.

Lemma close_quit_returns s d :
  driver (self s) = Some d ->
  quit_raises ext (trace (world s)) d = None ->
  close ext s
  = (Return tt,
     {| self := {| config := config (self s); driver := None |};
        world := log_event EvGcCollect
                   (log_event (EvDebug "Browser closed successfully.")
                      (log_event (EvQuit d None) (world s))) |}).
Proof. intros Hd Hq. run_method. rewrite Hd. cbn. rewrite Hq. reflexivity. Qed.

Lemma close_quit_caught s d e :
  driver (self s) = Some d ->
  quit_raises ext (trace (world s)) d = Some e ->
  is_Exception e = true ->
  close ext s
  = (Return tt,
     {| self := self s;
        world := log_event EvGcCollect
                   (log_event
                      (EvDebug ("Failed to close browser properly: " +:+ exc_str e))
                      (log_event (EvQuit d (Some e)) (world s))) |}).
Proof.
  intros Hd Hq He. run_method. rewrite Hd. cbn. rewrite Hq. cbn.
  rewrite He. reflexivity.
Qed.

Lemma close_quit_uncaught s d e :
  driver (self s) = Some d ->
  quit_raises ext (trace (world s)) d = Some e ->
  is_Exception e = false ->
  close ext s
  = (Raise e,
     {| self := self s;
        world := log_event EvGcCollect
                   (log_event (EvQuit d (Some e)) (world s)) |}).
Proof.
  intros Hd Hq He. run_method. rewrite Hd. cbn. rewrite Hq. cbn.
  rewrite He. reflexivity.
Qed.

Lemma get_driver_existing s d :
  driver (self s) = Some d -> get_driver ext s = (Return (Some d), s).
Proof. intros Hd. run_method. rewrite Hd. cbn. rewrite Hd. reflexivity. Qed.

Lemma new_context_raises s e :
  Drission_raises ext (trace (world s)) (startup_options (self_config s)) = Some e ->
  new_context ext s
  = (Raise e,
     {| self := self s;
        world := log_event
                   (EvDrission (startup_options (self_config s)) (inl e))
                   (world s) |}).
Proof. intros Hc. run_method. rewrite Hc. reflexivity. Qed.

Lemma new_context_returns s :
  Drission_raises ext (trace (world s)) (startup_options (self_config s)) = None ->
  new_context ext s
  = (Return (Some (new_driver s)),
     {| self := {| config := config (self s); driver := Some (new_driver s) |};
        world :=
          log_event
            (EvDebugOptions "Driver created with options: %s"
               (startup_options (self_config s)))
            {| trace := trace (world s)
                        ++ [EvDrission (startup_options (self_config s))
                              (inr (new_driver s))];
               next_id := S (next_id (world s));
               running_loop := running_loop (world s);
               default_config := default_config (world s) |} |}).
Proof. intros Hc. run_method. rewrite Hc. reflexivity. Qed.

Lemma get_driver_absent s :
  driver (self s) = None -> get_driver ext s = new_context ext s.
Proof.
  intros Hd. unfold get_driver, bind, read_driver. rewrite Hd. reflexivity.
Qed.

End Facts.

(** ** Obtaining a driver *)

(** A call of [get_driver] that returns leaves the reference it returns
    in the manager, and that reference is a driver. *)
Lemma get_driver_returns_stored ext s r s1 :
  get_driver ext s = (Return r, s1) ->
  r = driver (self s1) /\ is_Some r.
Proof.
  destruct (driver (self s)) as [d|] eqn:Hd.
  - rewrite (get_driver_existing ext s d Hd). intros [= <- <-].
    rewrite Hd. eauto.
  - rewrite (get_driver_absent ext s Hd).
    destruct (Drission_raises ext (trace (world s))
                (startup_options (self_config s))) as [e|] eqn:Hc.
    + rewrite (new_context_raises ext s e Hc). discriminate.
    + rewrite (new_context_returns ext s Hc). intros [= <- <-]. cbn. eauto.
Qed.

(** C3: once a call of [get_driver] has returned a driver, any number of
    further calls with no [close] in between return that same reference
    and leave the manager and the world (hence the trace: no construction,
    no other effect) exactly as they were. *)
Theorem get_driver_reuses_driver ext s r s1 :
  get_driver ext s = (Return r, s1) ->
  is_Some r /\
  forall n, get_driver_times ext n s1 = (replicate n (Return r), s1).
Proof.
  intros Hfirst.
  destruct (get_driver_returns_stored ext s r s1 Hfirst) as [Hr [d Hd]].
  split; [eauto|]. subst r.
  induction n as [|n IH]; cbn [get_driver_times replicate]; [reflexivity|].
  rewrite (get_driver_existing ext s1 d Hd), IH, Hd. reflexivity.
Qed.

Lemma get_driver_reuses_driver_witness :
  get_driver ext_reliable st_fresh = (Return (Some (new_driver st_fresh)), st_active) /\
  get_driver_times ext_reliable 3 st_active
  = (replicate 3 (Return (Some (new_driver st_fresh))), st_active).
Proof.
  split; [reflexivity|].
  apply (get_driver_reuses_driver ext_reliable st_fresh
           (Some (new_driver st_fresh)) st_active).
  reflexivity.
Defined.

(** C6: in a manager without a driver, an error raised by the driver
    constructor comes out of [get_driver], and of [new_context], as that
    very error: neither method handles it. *)
Theorem construction_error_propagates ext s e :
  driver (self s) = None ->
  Drission_raises ext (trace (world s)) (startup_options (self_config s)) = Some e ->
  fst (get_driver ext s) = Raise e /\ fst (new_context ext s) = Raise e.
Proof.
  intros Hd Hc.
  rewrite (get_driver_absent ext s Hd), (new_context_raises ext s e Hc).
  split; reflexivity.
Qed.

Lemma construction_error_propagates_witness :
  fst (get_driver ext_ctor_fails st_fresh)
  = Raise {| exc_class := "FileNotFoundError"; is_Exception := true;
             exc_str := "chrome executable not found" |} /\
  fst (new_context ext_ctor_fails st_fresh)
  = Raise {| exc_class := "FileNotFoundError"; is_Exception := true;
             exc_str := "chrome executable not found" |}.
Proof.
  apply (construction_error_propagates ext_ctor_fails st_fresh); reflexivity.
Defined.

(** C9: when the constructor raises during [get_driver] on a manager
    without a driver, the manager is left as it was, its reference still
    [None], and the next [get_driver] calls the constructor once more. *)
Theorem construction_error_keeps_no_driver ext s e :
  driver (self s) = None ->
  Drission_raises ext (trace (world s)) (startup_options (self_config s)) = Some e ->
  let s' := snd (get_driver ext s) in
  self s' = self s /\
  driver (self s') = None /\
  count_construction (trace (world (snd (get_driver ext s'))))
  = S (count_construction (trace (world s'))).
Proof.
  intros Hd Hc s'.
  assert (Hs' : self s' = self s).
  { subst s'. rewrite (get_driver_absent ext s Hd), (new_context_raises ext s e Hc).
    reflexivity. }
  assert (Hd' : driver (self s') = None) by (rewrite Hs'; exact Hd).
  repeat split; [exact Hs' | exact Hd' |].
  rewrite (get_driver_absent ext s' Hd').
  unfold count_construction.
  destruct (Drission_raises ext (trace (world s'))
              (startup_options (self_config s'))) as [e'|] eqn:Hc'.
  - rewrite (new_context_raises ext s' e' Hc'). cbn [snd world].
    rewrite trace_log_event, List.filter_app, length_app. cbn. lia.
  - rewrite (new_context_returns ext s' Hc'). cbn [snd world].
    rewrite trace_log_event. cbn [trace].
    rewrite !List.filter_app, !length_app. cbn. lia.
Qed.

Lemma construction_error_keeps_no_driver_witness :
  self (snd (get_driver ext_ctor_fails st_fresh)) = self st_fresh /\
  driver (self (snd (get_driver ext_ctor_fails st_fresh))) = None /\
  count_construction
    (trace (world (snd (get_driver ext_ctor_fails
                          (snd (get_driver ext_ctor_fails st_fresh))))))
  = S (count_construction (trace (world (snd (get_driver ext_ctor_fails st_fresh))))).
Proof.
  apply (construction_error_keeps_no_driver ext_ctor_fails st_fresh
           {| exc_class := "FileNotFoundError"; is_Exception := true;
              exc_str := "chrome executable not found" |}); reflexivity.
Defined.

(** ** Closing *)

(** C4: on a manager without a driver [close] returns normally, leaves the
    manager as it is and calls nothing but the collector, so no [quit];
    closing once more does the same again. *)
Theorem close_without_driver_is_noop ext s :
  driver (self s) = None ->
  let s' := snd (close ext s) in
  fst (close ext s) = Return tt /\
  self s' = self s /\
  trace (world s') = trace (world s) ++ [EvGcCollect] /\
  count_quit (trace (world s')) = count_quit (trace (world s)) /\
  fst (close ext s') = Return tt /\
  self (snd (close ext s')) = self s.
Proof.
  intros Hd s'. subst s'.
  rewrite (close_no_driver ext s Hd). cbn [fst snd self world].
  rewrite (close_no_driver ext
             {| self := self s; world := log_event EvGcCollect (world s) |} Hd).
  cbn [fst snd self world].
  rewrite trace_log_event. unfold count_quit.
  rewrite List.filter_app, length_app. cbn.
  repeat split. lia.
Qed.

Lemma close_without_driver_is_noop_witness :
  fst (close ext_quit_fails st_fresh) = Return tt /\
  self (snd (close ext_quit_fails st_fresh)) = self st_fresh /\
  trace (world (snd (close ext_quit_fails st_fresh)))
  = trace (world st_fresh) ++ [EvGcCollect] /\
  count_quit (trace (world (snd (close ext_quit_fails st_fresh))))
  = count_quit (trace (world st_fresh)) /\
  fst (close ext_quit_fails (snd (close ext_quit_fails st_fresh))) = Return tt /\
  self (snd (close ext_quit_fails (snd (close ext_quit_fails st_fresh))))
  = self st_fresh.
Proof.
  apply (close_without_driver_is_noop ext_quit_fails st_fresh). reflexivity.
Defined.

(** C1, as the code has it: when [quit] raises an [Exception] inside
    [close], the error is logged and [close] returns normally, but the
    assignment [self.driver = None] is skipped: the manager still holds
    the driver, it is not back in the state without one. *)
Theorem close_quit_raises_keeps_driver ext s d e :
  driver (self s) = Some d ->
  quit_raises ext (trace (world s)) d = Some e ->
  is_Exception e = true ->
  fst (close ext s) = Return tt /\
  driver (self (snd (close ext s))) = Some d /\
  trace (world (snd (close ext s)))
  = trace (world s)
    ++ [EvQuit d (Some e);
        EvDebug ("Failed to close browser properly: " +:+ exc_str e);
        EvGcCollect].
Proof.
  intros Hd Hq He. rewrite (close_quit_caught ext s d e Hd Hq He).
  cbn [fst snd self world]. rewrite !trace_log_event, <- !app_assoc.
  repeat split. exact Hd.
Qed.

Lemma close_quit_raises_keeps_driver_witness :
  fst (close ext_quit_fails st_active) = Return tt /\
  driver (self (snd (close ext_quit_fails st_active))) = Some (new_driver st_fresh) /\
  trace (world (snd (close ext_quit_fails st_active)))
  = trace (world st_active)
    ++ [EvQuit (new_driver st_fresh)
          (Some {| exc_class := "ConnectionError"; is_Exception := true;
                   exc_str := "browser is unreachable" |});
        EvDebug "Failed to close browser properly: browser is unreachable";
        EvGcCollect].
Proof.
  apply (close_quit_raises_keeps_driver ext_quit_fails st_active
           (new_driver st_fresh)
           {| exc_class := "ConnectionError"; is_Exception := true;
              exc_str := "browser is unreachable" |}); reflexivity.
Defined.

(** C5, as the code has it: on a manager holding a driver, [close] calls
    [quit] exactly once and ends with a collection pass whatever happens,
    but the reference is cleared only when [quit] returned; after a [quit]
    that raised, the collection runs with the driver still stored. *)
Theorem close_with_driver_effects ext s d :
  driver (self s) = Some d ->
  let s' := snd (close ext s) in
  count_quit (trace (world s')) = S (count_quit (trace (world s))) /\
  last (trace (world s')) = Some EvGcCollect /\
  (driver (self s') = None <-> quit_raises ext (trace (world s)) d = None) /\
  (quit_raises ext (trace (world s)) d <> None -> driver (self s') = Some d).
Proof.
  intros Hd s'. subst s'. unfold count_quit.
  destruct (quit_raises ext (trace (world s)) d) as [e|] eqn:Hq.
  - destruct (is_Exception e) eqn:He.
    + rewrite (close_quit_caught ext s d e Hd Hq He). cbn [snd self world].
      rewrite !trace_log_event, !List.filter_app, !length_app, last_snoc, Hd.
      cbn. repeat split; try done. lia.
    + rewrite (close_quit_uncaught ext s d e Hd Hq He). cbn [snd self world].
      rewrite !trace_log_event, !List.filter_app, !length_app, last_snoc, Hd.
      cbn. repeat split; try done. lia.
  - rewrite (close_quit_returns ext s d Hd Hq). cbn [snd self world driver].
    rewrite !trace_log_event, !List.filter_app, !length_app, last_snoc.
    cbn. repeat split; try done. lia.
Qed.

Lemma close_with_driver_effects_witness :
  count_quit (trace (world (snd (close ext_quit_fails st_active))))
  = S (count_quit (trace (world st_active))) /\
  last (trace (world (snd (close ext_quit_fails st_active)))) = Some EvGcCollect /\
  (driver (self (snd (close ext_quit_fails st_active))) = None
   <-> quit_raises ext_quit_fails (trace (world st_active)) (new_driver st_fresh) = None) /\
  (quit_raises ext_quit_fails (trace (world st_active)) (new_driver st_fresh) <> None ->
   driver (self (snd (close ext_quit_fails st_active))) = Some (new_driver st_fresh)).
Proof.
  apply (close_with_driver_effects ext_quit_fails st_active (new_driver st_fresh)).
  reflexivity.
Defined.

(** ** Finalization *)

(** Inside a running loop the finalizer only queues [close]. *)
Lemma del_in_running_loop_schedules ext s d l :
  driver (self s) = Some d ->
  running_loop (world s) = Some l ->
  is_running l = true ->
  __del__ ext s
  = (Return tt,
     {| self := self s;
        world := set_running_loop
                   (Some {| is_running := true; ready := ready l ++ [CoClose] |})
                   (world s) |}).
Proof.
  intros Hd Hl Hr. run_method. rewrite Hd. cbn. rewrite Hl. cbn.
  rewrite Hr. reflexivity.
Qed.

(** The finalizer returns on every path. *)
Lemma del_never_raises ext s : fst (__del__ ext s) = Return tt.
Proof.
  run_method. destruct (driver (self s)) as [d|]; cbn; [|reflexivity].
  destruct (running_loop (world s)) as [[[] q]|] eqn:Hl; cbn;
    rewrite ?Hl; reflexivity.
Qed.

(** The finalizer itself never reaches [quit]: whatever shutdown happens
    is left to the task it may have queued. *)
Lemma del_never_quits ext s :
  count_quit (trace (world (snd (__del__ ext s)))) = count_quit (trace (world s)).
Proof.
  run_method. destruct (driver (self s)) as [d|]; cbn; [|reflexivity].
  destruct (running_loop (world s)) as [[[] q]|] eqn:Hl; cbn;
    rewrite ?Hl; cbn; try reflexivity;
    unfold count_quit; rewrite List.filter_app, length_app; cbn; lia.
Qed.

(** C2, as the code has it: when a manager that still holds a driver is
    finalized while no event loop is running, [asyncio.get_running_loop()]
    raises [RuntimeError]; the finalizer logs it and returns.  [close] is
    not run, [quit] is not called and the driver stays stored. *)
Theorem del_without_running_loop_skips_close ext s d :
  driver (self s) = Some d ->
  running_loop (world s) = None ->
  __del__ ext s
  = (Return tt,
     {| self := self s;
        world := log_event
                   (EvDebug "Failed to cleanup browser in destructor: no running event loop")
                   (world s) |}).
Proof.
  intros Hd Hl. run_method. rewrite Hd. cbn. rewrite Hl. reflexivity.
Qed.

Lemma del_without_running_loop_skips_close_witness :
  driver (self st_active) = Some (new_driver st_fresh) /\
  running_loop (world st_active) = None /\
  __del__ ext_reliable st_active
  = (Return tt,
     {| self := st_active.(self);
        world := log_event
                   (EvDebug "Failed to cleanup browser in destructor: no running event loop")
                   (world st_active) |}).
Proof.
  split; [reflexivity|]. split; [reflexivity|].
  apply (del_without_running_loop_skips_close ext_reliable st_active
           (new_driver st_fresh)); reflexivity.
Defined.

(** ** Construction *)



(** ** The single-owner invariant *)

Lemma owned_snoc t ev : owned (t ++ [ev]) = owned_step (owned t) ev.
Proof. unfold owned. rewrite fold_left_app. reflexivity. Qed.

Lemma owned_log_event ev w :
  owned (trace (log_event ev w)) = owned_step (owned (trace w)) ev.
Proof. rewrite trace_log_event. apply owned_snoc. Qed.

Lemma get_driver_single_owner ext s :
  single_owner s -> single_owner (snd (get_driver ext s)).
Proof.
  unfold single_owner. intros Inv.
  destruct (driver (self s)) as [d|] eqn:Hd.
  - rewrite (get_driver_existing ext s d Hd). cbn [snd]. rewrite Hd. exact Inv.
  - rewrite (get_driver_absent ext s Hd).
    destruct (Drission_raises ext (trace (world s))
                (startup_options (self_config s))) as [e|] eqn:Hc.
    + rewrite (new_context_raises ext s e Hc). cbn [snd self world].
      rewrite owned_log_event, Inv, Hd. reflexivity.
    + rewrite (new_context_returns ext s Hc). cbn [snd self world driver].
      rewrite owned_log_event. cbn [trace]. rewrite owned_snoc, Inv.
      reflexivity.
Qed.

Lemma close_single_owner ext s :
  single_owner s -> single_owner (snd (close ext s)).
Proof.
  unfold single_owner. intros Inv.
  destruct (driver (self s)) as [d|] eqn:Hd.
  - destruct (quit_raises ext (trace (world s)) d) as [e|] eqn:Hq.
    + destruct (is_Exception e) eqn:He.
      * rewrite (close_quit_caught ext s d e Hd Hq He). cbn [snd self world].
        rewrite !owned_log_event, Inv, Hd. reflexivity.
      * rewrite (close_quit_uncaught ext s d e Hd Hq He). cbn [snd self world].
        rewrite !owned_log_event, Inv, Hd. reflexivity.
    + rewrite (close_quit_returns ext s d Hd Hq). cbn [snd self world driver].
      rewrite !owned_log_event, Inv. cbn. rewrite Nat.eqb_refl. reflexivity.
  - rewrite (close_no_driver ext s Hd). cbn [snd self world].
    rewrite owned_log_event, Inv, Hd. reflexivity.
Qed.

Lemma run_ops_single_owner ext ops :
  forall s, single_owner s -> single_owner (run_ops ext ops s).
Proof.
  induction ops as [|o ops IH]; intros s Inv; [exact Inv|].
  cbn [run_ops fold_left]. apply IH.
  destruct o; cbn [run_op];
    [apply get_driver_single_owner | apply close_single_owner]; exact Inv.
Qed.

(** After a construction that returned, the trace has one more
    constructor call. *)
Lemma get_driver_absent_constructs ext s r s1 :
  driver (self s) = None ->
  get_driver ext s = (Return r, s1) ->
  count_construction (trace (world s1)) = S (count_construction (trace (world s))).
Proof.
  intros Hd. rewrite (get_driver_absent ext s Hd).
  destruct (Drission_raises ext (trace (world s))
              (startup_options (self_config s))) as [e|] eqn:Hc.
  - rewrite (new_context_raises ext s e Hc). discriminate.
  - rewrite (new_context_returns ext s Hc). intros [= <- <-].
    cbn [world]. rewrite trace_log_event. cbn [trace]. unfold count_construction.
    rewrite !List.filter_app, !length_app. cbn. lia.
Qed.

(** C8: a manager starts without a driver, and after any sequence of
    [get_driver] and [close] calls the drivers still to be shut down are
    exactly the one the manager refers to, if any, so never more than one.
    In any such state: if no driver is held and the constructor returns,
    [get_driver] returns the new driver and stores it; if a driver is held
    and its [quit] returns, [close] returns and clears the reference, and
    if the constructor then returns, the next [get_driver] constructs a
    driver again, returns it and stores it. *)
Theorem driver_reference_lifecycle ext cfg w :
  owned (trace w) = [] ->
  let s0 := __init__ cfg w in
  driver (self s0) = None /\
  forall ops,
    let s := run_ops ext ops s0 in
    owned (trace (world s)) = option_list (driver (self s)) /\
    length (owned (trace (world s))) <= 1 /\
    (driver (self s) = None ->
     Drission_raises ext (trace (world s)) (startup_options (self_config s)) = None ->
     fst (get_driver ext s) = Return (Some (new_driver s)) /\
     driver (self (snd (get_driver ext s))) = Some (new_driver s)) /\
    (forall d, driver (self s) = Some d ->
       quit_raises ext (trace (world s)) d = None ->
       let s1 := snd (close ext s) in
       fst (close ext s) = Return tt /\
       driver (self s1) = None /\
       (Drission_raises ext (trace (world s1)) (startup_options (self_config s1)) = None ->
        fst (get_driver ext s1) = Return (Some (new_driver s1)) /\
        driver (self (snd (get_driver ext s1))) = Some (new_driver s1) /\
        count_construction (trace (world (snd (get_driver ext s1))))
        = S (count_construction (trace (world s1))))).
Proof.
  intros Hw s0. split; [reflexivity|]. intros ops s.
  assert (Inv : single_owner s).
  { apply run_ops_single_owner. unfold single_owner, s0, __init__.
    cbn [self world driver]. rewrite owned_log_event, Hw. reflexivity. }
  unfold single_owner in Inv. split; [exact Inv|]. split.
  { rewrite Inv. destruct (driver (self s)); cbn; lia. }
  assert (Hobtain : forall s', driver (self s') = None ->
            Drission_raises ext (trace (world s')) (startup_options (self_config s')) = None ->
            fst (get_driver ext s') = Return (Some (new_driver s')) /\
            driver (self (snd (get_driver ext s'))) = Some (new_driver s') /\
            count_construction (trace (world (snd (get_driver ext s'))))
            = S (count_construction (trace (world s')))).
  { intros s' Hd Hc. rewrite (get_driver_absent ext s' Hd).
    split; [|split].
    - rewrite (new_context_returns ext s' Hc). reflexivity.
    - rewrite (new_context_returns ext s' Hc). reflexivity.
    - apply (get_driver_absent_constructs ext s' (Some (new_driver s'))
               (snd (new_context ext s')) Hd).
      rewrite (get_driver_absent ext s' Hd), (new_context_returns ext s' Hc).
      reflexivity. }
  split.
  { intros Hd Hc. destruct (Hobtain s Hd Hc) as (Hr & Hs & _). split; assumption. }
  intros d Hd Hq s1.
  assert (Hd1 : driver (self s1) = None).
  { subst s1. rewrite (close_quit_returns ext s d Hd Hq). reflexivity. }
  split; [rewrite (close_quit_returns ext s d Hd Hq); reflexivity|].
  split; [exact Hd1|]. intros Hc1. exact (Hobtain s1 Hd1 Hc1).
Qed.

Lemma driver_reference_lifecycle_witness :
  owned (trace world0) = [] /\
  driver (self st_fresh) = None /\
  (let s := run_ops ext_reliable [Obtain; Obtain; Close; Close] st_fresh in
   owned (trace (world s)) = option_list (driver (self s)) /\
   length (owned (trace (world s))) <= 1 /\
   driver (self s) = None /\
   fst (get_driver ext_reliable s) = Return (Some (new_driver s)) /\
   driver (self (snd (get_driver ext_reliable s))) = Some (new_driver s)) /\
  (let s := run_ops ext_reliable [Obtain; Obtain] st_fresh in
   let s1 := snd (close ext_reliable s) in
   owned (trace (world s)) = option_list (driver (self s)) /\
   driver (self s) = Some (new_driver st_fresh) /\
   fst (close ext_reliable s) = Return tt /\
   driver (self s1) = None /\
   fst (get_driver ext_reliable s1) = Return (Some (new_driver s1)) /\
   driver (self (snd (get_driver ext_reliable s1))) = Some (new_driver s1) /\
   count_construction (trace (world (snd (get_driver ext_reliable s1))))
   = S (count_construction (trace (world s1)))).
Proof.
  split; [reflexivity|].
  destruct (driver_reference_lifecycle ext_reliable (Some config_headless) world0
              eq_refl) as [H0 Hops].
  split; [exact H0|]. split.
  - destruct (Hops [Obtain; Obtain; Close; Close]) as (Ho & Hl & Hget & _).
    split; [exact Ho|]. split; [exact Hl|]. split; [reflexivity|].
    exact (Hget eq_refl eq_refl).
  - destruct (Hops [Obtain; Obtain]) as (Ho & _ & _ & Hclose).
    split; [exact Ho|]. split; [reflexivity|].
    destruct (Hclose (new_driver st_fresh) eq_refl eq_refl) as (Hr & Hn & Hre).
    split; [exact Hr|]. split; [exact Hn|]. exact (Hre eq_refl).
Defined.

(** ** The module's usage scenario *)

(** A headless manager: obtain, obtain again, close, close again.  One
    construction with [headless] true, one [quit], and the reference is
    cleared at the end. *)
Example scenario_headless :
  let s1 := run_ops ext_reliable [Obtain; Obtain] st_fresh in
  let s2 := run_ops ext_reliable [Close; Close] s1 in
  driver (self s1) = Some (new_driver st_fresh) /\
  drv_options (new_driver st_fresh) !! "headless" = Some (PyBool true) /\
  count_construction (trace (world s1)) = 1 /\
  driver (self s2) = None /\
  count_quit (trace (world s2)) = 1 /\
  trace (world s2)
  = [EvDebug "Initializing new browser";
     EvDrission (startup_options config_headless) (inr (new_driver st_fresh));
     EvDebugOptions "Driver created with options: %s" (startup_options config_headless);
     EvQuit (new_driver st_fresh) None;
     EvDebug "Browser closed successfully.";
     EvGcCollect;
     EvGcCollect].
Proof. cbn. repeat split. Qed.

(** A manager finalized inside a running loop: [close] is queued as a
    task; the finalizer itself shuts nothing down. *)
Example scenario_finalized_in_loop :
  let s1 := snd (__del__ ext_reliable st_active_in_loop) in
  option_map ready (running_loop (world s1)) = Some [CoClose] /\
  driver (self s1) = driver (self st_active_in_loop) /\
  count_quit (trace (world s1)) = 0.
Proof. cbn. repeat split. Qed.

(** ** [new_context] called directly *)

(** X1: [new_context] does not look at the stored reference.  Called on a
    manager that already holds a driver, with a constructor that returns,
    it stores and returns the new driver and never shuts the old one
    down: two drivers are then waiting for a [quit], and the manager only
    refers to the second. *)
Theorem new_context_replaces_stored_driver ext s d :
  driver (self s) = Some d ->
  single_owner s ->
  Drission_raises ext (trace (world s)) (startup_options (self_config s)) = None ->
  let s' := snd (new_context ext s) in
  fst (new_context ext s) = Return (Some (new_driver s)) /\
  driver (self s') = Some (new_driver s) /\
  owned (trace (world s')) = [d; new_driver s] /\
  count_quit (trace (world s')) = count_quit (trace (world s)).
Proof.
  intros Hd Inv Hc s'. subst s'. unfold single_owner in Inv.
  rewrite (new_context_returns ext s Hc). cbn [fst snd self world driver].
  rewrite owned_log_event. cbn [trace]. rewrite owned_snoc, Inv, Hd.
  rewrite trace_log_event. cbn [trace]. unfold count_quit.
  rewrite !List.filter_app, !length_app. cbn. repeat split. lia.
Qed.

Lemma new_context_replaces_stored_driver_witness :
  driver (self st_active) = Some (new_driver st_fresh) /\
  single_owner st_active /\
  fst (new_context ext_reliable st_active) = Return (Some (new_driver st_active)) /\
  driver (self (snd (new_context ext_reliable st_active)))
  = Some (new_driver st_active) /\
  owned (trace (world (snd (new_context ext_reliable st_active))))
  = [new_driver st_fresh; new_driver st_active] /\
  count_quit (trace (world (snd (new_context ext_reliable st_active))))
  = count_quit (trace (world st_active)).
Proof.
  split; [reflexivity|]. split; [reflexivity|].
  apply (new_context_replaces_stored_driver ext_reliable st_active
           (new_driver st_fresh)); reflexivity.
Defined.

(** X2: every call of [new_context] calls the constructor exactly once,
    whatever the manager holds; when the constructor raises, the error
    comes out and the manager object is left as it was, a stored driver
    included. *)
Theorem new_context_always_constructs ext s :
  count_construction (trace (world (snd (new_context ext s))))
  = S (count_construction (trace (world s))) /\
  forall e, fst (new_context ext s) = Raise e ->
    Drission_raises ext (trace (world s)) (startup_options (self_config s)) = Some e /\
    self (snd (new_context ext s)) = self s.
Proof.
  unfold count_construction.
  destruct (Drission_raises ext (trace (world s))
              (startup_options (self_config s))) as [e|] eqn:Hc.
  - rewrite (new_context_raises ext s e Hc). cbn [fst snd self world].
    rewrite trace_log_event, List.filter_app, length_app. cbn.
    split; [lia|]. intros e' [= <-]. split; reflexivity.
  - rewrite (new_context_returns ext s Hc). cbn [fst snd self world].
    rewrite trace_log_event. cbn [trace].
    rewrite !List.filter_app, !length_app. cbn.
    split; [lia|]. discriminate.
Qed.

(** ** [close] on its other paths *)

(** X5: an exception from [quit] that does not derive from [Exception]
    (a [KeyboardInterrupt], say) is not handled by [close]: it reaches the
    caller.  The [finally] clause still runs the collection; nothing is
    logged and the driver stays stored. *)
Theorem close_lets_base_exception_through ext s d e :
  driver (self s) = Some d ->
  quit_raises ext (trace (world s)) d = Some e ->
  is_Exception e = false ->
  fst (close ext s) = Raise e /\
  self (snd (close ext s)) = self s /\
  trace (world (snd (close ext s)))
  = trace (world s) ++ [EvQuit d (Some e); EvGcCollect].
Proof.
  intros Hd Hq He. rewrite (close_quit_uncaught ext s d e Hd Hq He).
  cbn [fst snd self world]. rewrite !trace_log_event, <- !app_assoc.
  repeat split.
Qed.

Lemma close_lets_base_exception_through_witness :
  fst (close ext_quit_interrupted st_active)
  = Raise {| exc_class := "KeyboardInterrupt"; is_Exception := false;
             exc_str := "" |} /\
  self (snd (close ext_quit_interrupted st_active)) = self st_active /\
  trace (world (snd (close ext_quit_interrupted st_active)))
  = trace (world st_active)
    ++ [EvQuit (new_driver st_fresh)
          (Some {| exc_class := "KeyboardInterrupt"; is_Exception := false;
                   exc_str := "" |});
        EvGcCollect].
Proof.
  apply (close_lets_base_exception_through ext_quit_interrupted st_active
           (new_driver st_fresh)); reflexivity.
Defined.

(** X6: a [close] whose [quit] raised an [Exception] can be repeated: the
    second [close] calls [quit] on the same driver again, and if that call
    returns the reference is cleared.  Both calls of [close] return
    normally and [quit] has then been called twice. *)
Theorem close_retries_quit_after_failure ext s d e :
  driver (self s) = Some d ->
  quit_raises ext (trace (world s)) d = Some e ->
  is_Exception e = true ->
  let s1 := snd (close ext s) in
  quit_raises ext (trace (world s1)) d = None ->
  let s2 := snd (close ext s1) in
  fst (close ext s) = Return tt /\
  fst (close ext s1) = Return tt /\
  driver (self s2) = None /\
  count_quit (trace (world s2)) = 2 + count_quit (trace (world s)) /\
  exists t, trace (world s2) = t ++ [EvQuit d None;
                                     EvDebug "Browser closed successfully.";
                                     EvGcCollect].
Proof.
  intros Hd Hq He s1 Hq1 s2.
  assert (Hd1 : driver (self s1) = Some d).
  { subst s1. rewrite (close_quit_caught ext s d e Hd Hq He). exact Hd. }
  assert (Ht1 : count_quit (trace (world s1)) = S (count_quit (trace (world s)))).
  { subst s1. rewrite (close_quit_caught ext s d e Hd Hq He). cbn [snd world].
    rewrite !trace_log_event. unfold count_quit.
    rewrite !List.filter_app, !length_app. cbn. lia. }
  split.
  { rewrite (close_quit_caught ext s d e Hd Hq He). reflexivity. }
  subst s2. rewrite (close_quit_returns ext s1 d Hd1 Hq1).
  cbn [fst snd self world driver]. rewrite !trace_log_event, <- !app_assoc.
  repeat split.
  - unfold count_quit in *. rewrite List.filter_app, length_app, Ht1. cbn. lia.
  - exists (trace (world s1)). reflexivity.
Qed.

Lemma close_retries_quit_after_failure_witness :
  fst (close ext_quit_fails_once st_active) = Return tt /\
  fst (close ext_quit_fails_once (snd (close ext_quit_fails_once st_active)))
  = Return tt /\
  driver (self (snd (close ext_quit_fails_once
                       (snd (close ext_quit_fails_once st_active))))) = None /\
  count_quit (trace (world (snd (close ext_quit_fails_once
                                   (snd (close ext_quit_fails_once st_active))))))
  = 2 + count_quit (trace (world st_active)) /\
  exists t,
    trace (world (snd (close ext_quit_fails_once
                         (snd (close ext_quit_fails_once st_active)))))
    = t ++ [EvQuit (new_driver st_fresh) None;
            EvDebug "Browser closed successfully.";
            EvGcCollect].
Proof.
  apply (close_retries_quit_after_failure ext_quit_fails_once st_active
           (new_driver st_fresh)
           {| exc_class := "ConnectionError"; is_Exception := true;
              exc_str := "browser is unreachable" |}); reflexivity.
Defined.

(** X7: after a [close] whose [quit] raised an [Exception], [get_driver]
    hands out the driver that failed to shut down: it returns the stored
    reference and constructs nothing. *)
Theorem get_driver_after_failed_close_reuses_driver ext s d e :
  driver (self s) = Some d ->
  quit_raises ext (trace (world s)) d = Some e ->
  is_Exception e = true ->
  get_driver ext (snd (close ext s)) = (Return (Some d), snd (close ext s)).
Proof.
  intros Hd Hq He. apply get_driver_existing.
  rewrite (close_quit_caught ext s d e Hd Hq He). exact Hd.
Qed.

Lemma get_driver_after_failed_close_reuses_driver_witness :
  get_driver ext_quit_fails (snd (close ext_quit_fails st_active))
  = (Return (Some (new_driver st_fresh)), snd (close ext_quit_fails st_active)).
Proof.
  apply (get_driver_after_failed_close_reuses_driver ext_quit_fails st_active
           (new_driver st_fresh)
           {| exc_class := "ConnectionError"; is_Exception := true;
              exc_str := "browser is unreachable" |}); reflexivity.
Defined.

(** ** The finalizer on all its paths *)

(** The three things the finalizer can do. *)
Lemma del_cases ext s :
  __del__ ext s = (Return tt, s) \/
  (exists msg,
     __del__ ext s
     = (Return tt,
        {| self := self s; world := log_event (EvDebug msg) (world s) |})) \/
  (exists l,
     __del__ ext s
     = (Return tt,
        {| self := self s; world := set_running_loop (Some l) (world s) |})).
Proof.
  run_method. destruct (driver (self s)) as [d|]; cbn; [|left; reflexivity].
  destruct (running_loop (world s)) as [[[] q]|] eqn:Hl; cbn; rewrite ?Hl; cbn.
  - right; right. eexists. reflexivity.
  - right; left. eexists. reflexivity.
  - right; left. eexists. reflexivity.
Qed.

(** X3: the finalizer returns normally on every path, leaves the manager
    object as it is (the reference is not cleared), and itself calls
    neither [quit] nor the constructor: any shutdown is left to the task
    it may have queued. *)
Theorem del_leaves_manager_and_drivers_alone ext s :
  fst (__del__ ext s) = Return tt /\
  self (snd (__del__ ext s)) = self s /\
  count_quit (trace (world (snd (__del__ ext s)))) = count_quit (trace (world s)) /\
  count_construction (trace (world (snd (__del__ ext s))))
  = count_construction (trace (world s)).
Proof.
  destruct (del_cases ext s) as [H|[[msg H]|[l H]]]; rewrite H;
    cbn [fst snd self world]; repeat split;
    rewrite trace_log_event; unfold count_quit, count_construction;
    rewrite List.filter_app, length_app; cbn; lia.
Qed.

(** X10: once a [close] has shut the driver down, closing again any number
    of times changes nothing more: the reference stays cleared and [quit]
    has been called once in all. *)
Theorem close_repeated_quits_once ext s d :
  driver (self s) = Some d ->
  quit_raises ext (trace (world s)) d = None ->
  forall n,
    let s' := run_ops ext (Close :: replicate n Close) s in
    driver (self s') = None /\
    count_quit (trace (world s')) = S (count_quit (trace (world s))).
Proof.
  intros Hd Hq n. cbn [run_ops fold_left run_op].
  assert (H1 : driver (self (snd (close ext s))) = None /\
               count_quit (trace (world (snd (close ext s))))
               = S (count_quit (trace (world s)))).
  { rewrite (close_quit_returns ext s d Hd Hq). cbn [snd self world driver].
    rewrite !trace_log_event. unfold count_quit.
    rewrite !List.filter_app, !length_app. cbn. split; [reflexivity|lia]. }
  revert H1. generalize (snd (close ext s)) as s1.
  generalize (S (count_quit (trace (world s)))) as k.
  induction n as [|n IH]; intros k s1 [Hd1 Hk]; cbn [replicate fold_left run_op].
  - split; assumption.
  - apply IH. rewrite (close_no_driver ext s1 Hd1). cbn [snd self world].
    split; [exact Hd1|]. rewrite trace_log_event. unfold count_quit in *.
    rewrite List.filter_app, length_app. cbn. lia.
Qed.

Lemma close_repeated_quits_once_witness :
  let s' := run_ops ext_reliable (Close :: replicate 3 Close) st_active in
  driver (self s') = None /\
  count_quit (trace (world s')) = S (count_quit (trace (world st_active))).
Proof.
  apply (close_repeated_quits_once ext_reliable st_active (new_driver st_fresh));
    reflexivity.
Defined.

(** ** What every sequence of calls keeps *)

Lemma follows_refl s : follows s s.
Proof.
  split; [reflexivity|]. split; [reflexivity|].
  exists []. rewrite app_nil_r. split; constructor.
Qed.

(** Along [follows] the manager reads the same configuration. *)
Lemma follows_self_config s s' : follows s s' -> self_config s' = self_config s.
Proof. intros (Hc & Hd & _). unfold self_config, deref. rewrite Hc, Hd. reflexivity. Qed.

Lemma follows_trans s1 s2 s3 : follows s1 s2 -> follows s2 s3 -> follows s1 s3.
Proof.
  intros H12 H23. pose proof (follows_self_config _ _ H12) as Hsc.
  destruct H12 as (Hc1 & Hd1 & t1 & Ht1 & Hf1).
  destruct H23 as (Hc2 & Hd2 & t2 & Ht2 & Hf2).
  split; [rewrite Hc2; exact Hc1|]. split; [rewrite Hd2; exact Hd1|].
  exists (t1 ++ t2). rewrite Ht2, Ht1, app_assoc. split; [reflexivity|].
  apply Forall_app. split; [exact Hf1|]. rewrite <- Hsc. exact Hf2.
Qed.

(** A step that keeps both configuration objects and logs [suffix]. *)
Lemma follows_suffix s s' suffix :
  config (self s') = config (self s) ->
  default_config (world s') = default_config (world s) ->
  trace (world s') = trace (world s) ++ suffix ->
  Forall (built_from (self_config s)) suffix ->
  follows s s'.
Proof.
  intros Hc Hd Ht Hf. split; [exact Hc|]. split; [exact Hd|].
  exists suffix. split; assumption.
Qed.

Lemma new_context_follows ext s : follows s (snd (new_context ext s)).
Proof.
  destruct (Drission_raises ext (trace (world s))
              (startup_options (self_config s))) as [e|] eqn:Hc.
  - rewrite (new_context_raises ext s e Hc).
    eapply follows_suffix; [reflexivity | reflexivity | apply trace_log_event |].
    repeat constructor.
  - rewrite (new_context_returns ext s Hc).
    eapply follows_suffix; [reflexivity | reflexivity | |].
    + cbn [snd world]. rewrite trace_log_event. cbn [trace].
      rewrite <- app_assoc. reflexivity.
    + repeat constructor.
Qed.

Lemma get_driver_follows ext s : follows s (snd (get_driver ext s)).
Proof.
  destruct (driver (self s)) as [d|] eqn:Hd.
  - rewrite (get_driver_existing ext s d Hd). apply follows_refl.
  - rewrite (get_driver_absent ext s Hd). apply new_context_follows.
Qed.

Lemma close_follows ext s : follows s (snd (close ext s)).
Proof.
  destruct (driver (self s)) as [d|] eqn:Hd.
  - destruct (quit_raises ext (trace (world s)) d) as [e|] eqn:Hq.
    + destruct (is_Exception e) eqn:He.
      * rewrite (close_quit_caught ext s d e Hd Hq He).
        eapply follows_suffix; [reflexivity | reflexivity | |].
        -- cbn [snd world]. rewrite !trace_log_event, <- !app_assoc. reflexivity.
        -- repeat constructor.
      * rewrite (close_quit_uncaught ext s d e Hd Hq He).
        eapply follows_suffix; [reflexivity | reflexivity | |].
        -- cbn [snd world]. rewrite !trace_log_event, <- !app_assoc. reflexivity.
        -- repeat constructor.
    + rewrite (close_quit_returns ext s d Hd Hq).
      eapply follows_suffix; [reflexivity | reflexivity | |].
      * cbn [snd world]. rewrite !trace_log_event, <- !app_assoc. reflexivity.
      * repeat constructor.
  - rewrite (close_no_driver ext s Hd).
    eapply follows_suffix; [reflexivity | reflexivity | apply trace_log_event |].
    repeat constructor.
Qed.

Lemma del_follows ext s : follows s (snd (__del__ ext s)).
Proof.
  destruct (del_cases ext s) as [H|[[msg H]|[l H]]]; rewrite H.
  - apply follows_refl.
  - eapply follows_suffix; [reflexivity | reflexivity | apply trace_log_event |].
    repeat constructor.
  - apply (follows_suffix _ _ []); [reflexivity | reflexivity | | constructor].
    cbn. rewrite app_nil_r. reflexivity.
Qed.

Lemma run_action_follows ext a s : follows s (run_action ext a s).
Proof.
  destruct a; cbn [run_action];
    auto using get_driver_follows, new_context_follows, close_follows,
      del_follows.
Qed.

Lemma run_actions_follows ext acts : forall s, follows s (run_actions ext acts s).
Proof.
  induction acts as [|a acts IH]; intros s; cbn [run_actions fold_left].
  - apply follows_refl.
  - eapply follows_trans; [apply run_action_follows | apply IH].
Qed.

(** X8: no method and no finalizer call ever changes which configuration
    object the manager refers to or what the manager reads from it, and
    every constructor call a sequence of them makes is given the options
    built from that configuration. *)
Theorem configuration_never_changes ext acts s :
  config (self (run_actions ext acts s)) = config (self s) /\
  self_config (run_actions ext acts s) = self_config s /\
  exists suffix,
    trace (world (run_actions ext acts s)) = trace (world s) ++ suffix /\
    Forall (built_from (self_config s)) suffix.
Proof.
  pose proof (run_actions_follows ext acts s) as H.
  pose proof (follows_self_config _ _ H) as Hsc.
  destruct H as (Hc & _ & Hsuffix).
  split; [exact Hc|]. split; [exact Hsc|]. exact Hsuffix.
Qed.

Lemma new_context_driver_from_config ext s :
  driver_from_config s -> driver_from_config (snd (new_context ext s)).
Proof.
  intros Inv.
  destruct (Drission_raises ext (trace (world s))
              (startup_options (self_config s))) as [e|] eqn:Hc.
  - rewrite (new_context_raises ext s e Hc). exact Inv.
  - rewrite (new_context_returns ext s Hc). reflexivity.
Qed.

Lemma close_driver_from_config ext s :
  driver_from_config s -> driver_from_config (snd (close ext s)).
Proof.
  intros Inv.
  destruct (driver (self s)) as [d|] eqn:Hd.
  - destruct (quit_raises ext (trace (world s)) d) as [e|] eqn:Hq.
    + destruct (is_Exception e) eqn:He.
      * rewrite (close_quit_caught ext s d e Hd Hq He). exact Inv.
      * rewrite (close_quit_uncaught ext s d e Hd Hq He). exact Inv.
    + rewrite (close_quit_returns ext s d Hd Hq). exact I.
  - rewrite (close_no_driver ext s Hd). exact Inv.
Qed.

Lemma run_action_driver_from_config ext a s :
  driver_from_config s -> driver_from_config (run_action ext a s).
Proof.
  intros Inv. destruct a; cbn [run_action].
  - destruct (driver (self s)) as [d|] eqn:Hd.
    + rewrite (get_driver_existing ext s d Hd). exact Inv.
    + rewrite (get_driver_absent ext s Hd).
      apply new_context_driver_from_config, Inv.
  - apply new_context_driver_from_config, Inv.
  - apply close_driver_from_config, Inv.
  - destruct (del_cases ext s) as [H|[[msg H]|[l H]]]; rewrite H; exact Inv.
Qed.

(** X9: whatever methods and finalizer calls follow the construction of a
    manager, the driver it holds, if any, was built from the options of
    the configuration object the manager was constructed with: the
    caller's object, or the shared default object as it stood then. *)
Theorem stored_driver_built_from_configuration ext cfg w acts :
  match driver (self (run_actions ext acts (__init__ cfg w))) with
  | Some d =>
      drv_options d
      = startup_options (match cfg with
                         | Some c => c
                         | None => default_config w
                         end)
  | None => True
  end.
Proof.
  assert (Inv : driver_from_config (run_actions ext acts (__init__ cfg w))).
  { generalize (__init__ cfg w), (I : driver_from_config (__init__ cfg w)).
    induction acts as [|a acts IH]; intros s Hs; cbn [run_actions fold_left].
    - exact Hs.
    - apply IH, run_action_driver_from_config, Hs. }
  unfold driver_from_config in Inv.
  destruct (configuration_never_changes ext acts (__init__ cfg w)) as (_ & Hc & _).
  rewrite Hc in Inv. destruct cfg; exact Inv.
Qed.

(** ** The default configuration *)

(** A [Browser()] built after the shared default object was assigned to
    through an earlier manager does not have the dataclass defaults. *)
Lemma default_configuration_after_assignment :
  let s1 := __init__ None (def_Browser world0) in
  let s2 := snd (assign_config_headless true s1) in
  let c := self_config (__init__ None (world s2)) in
  headless c = true /\
  ~ (headless c = false /\
     disable_security c = true /\
     extra_chromium_args c = [] /\
     chrome_instance_path c = None /\
     proxy c = None).
Proof. cbn. split; [reflexivity|]. intros [H _]. discriminate H. Qed.

(** C10, amended: a manager constructed without a configuration argument
    refers to the one [BrowserConfig] object made when the class was
    defined and reads its present state.  That object is made with
    [headless] false, [disable_security] true, no extra arguments, no
    executable path and no proxy, and no method or finalizer of any
    manager changes it: after the class definition and any use of a
    manager through its methods, a manager constructed without an argument
    has exactly these values. *)
Theorem default_configuration ext w cfg acts :
  config (self (__init__ None w)) = DefaultArgument /\
  self_config (__init__ None w) = default_config w /\
  let w' := world (run_actions ext acts (__init__ cfg (def_Browser w))) in
  let c := self_config (__init__ None w') in
  default_config w' = BrowserConfig_default /\
  headless c = false /\
  disable_security c = true /\
  extra_chromium_args c = [] /\
  chrome_instance_path c = None /\
  proxy c = None.
Proof.
  split; [reflexivity|]. split; [reflexivity|]. intros w' c.
  assert (Hw' : default_config w' = BrowserConfig_default).
  { subst w'.
    destruct (run_actions_follows ext acts (__init__ cfg (def_Browser w)))
      as (_ & Hd & _).
    rewrite Hd. reflexivity. }
  split; [exact Hw'|].
  assert (Hc : c = BrowserConfig_default) by (subst c; exact Hw').
  rewrite Hc. repeat split.
Qed.
